(** * Proxy Monitor: the command protocol and the change-detection loop

    A shallow embedding of [main.go].  The program is one executable that
    runs in one of two roles: the first instance owns the monitoring state and
    serves one-byte commands on a named pipe; later instances send a single
    command byte and leave.

    Conventions of the embedding:
    - a Go [byte] and a [uint64] are integers of [Z]; only equality tests are
      made on them, so no wrap-around arithmetic occurs;
    - Go [error] values are the type [error]; [registry.ErrNotExist] is the
      one error the code compares against;
    - everything the process does to the outside world (standard output, the
      pipe, the log file) is recorded, in order, as a list of [event]s;
    - [os.Exit] and a blocking call that never returns end the computation
      ([Exited], [Blocked]);
    - the unbounded [for] loops consume a list with one entry per iteration,
      holding what the environment answers during that iteration. *)

From Stdlib Require Import ZArith List String Ascii Bool Lia.
Import ListNotations.
Local Open Scope string_scope.
Local Open Scope Z_scope.
Local Open Scope list_scope.

(** ** Values shared by every part of the program *)

Abbreviation byte := Z (only parsing).

Inductive error : Type :=
| ErrNotExist               (* registry.ErrNotExist *)
| ErrMsg (msg : string).    (* any other error, with its text *)

Definition is_ErrNotExist (e : error) : bool :=
  match e with ErrNotExist => true | ErrMsg _ => false end.

(** An operand of [fmt.Println]. *)
Inductive operand : Type :=
| Str (s : string)
| Err (e : error).

Inductive event : Type :=
| Println (ops : list operand)   (* one line on standard output *)
| PipeWrite (b : byte)           (* the one-byte buffer handed to Write *)
| PipeClose                      (* Close on a pipe connection *)
| LogWrite (line : string).      (* fmt.Fprintf on the log file *)

Definition trace := list event.

(** The bytes written to the pipe, in order. *)
Definition wire (t : trace) : list byte :=
  flat_map (fun e => match e with PipeWrite b => [b] | _ => [] end) t.

(** The lines appended to the log file, in order. *)
Definition logged (t : trace) : list string :=
  flat_map (fun e => match e with LogWrite l => [l] | _ => [] end) t.

(** ** Command constants *)

Definition NO_COMMAND : byte := 0.
Definition CMD_STOP : byte := 1.
Definition CMD_QUIT : byte := 2.
Definition CMD_START : byte := 3.

(** ** Monitoring state of the first instance

    [listenerEnabled] is the package-level variable; [lastProxyEnable] and
    [lastProxyServer] are the variables of [listenToProxyChanges] that its
    closure [checkForChanges] captures.  All three start at the values of
    [initState]. *)

Record State : Type := mkState {
  listenerEnabled : bool;
  lastProxyEnable : Z;
  lastProxyServer : string
}.

Definition initState : State :=
  {| listenerEnabled := true; lastProxyEnable := 0; lastProxyServer := EmptyString |}.

Definition set_listenerEnabled (b : bool) (s : State) : State :=
  {| listenerEnabled := b;
     lastProxyEnable := lastProxyEnable s;
     lastProxyServer := lastProxyServer s |}.

Definition set_lastProxyEnable (v : Z) (s : State) : State :=
  {| listenerEnabled := listenerEnabled s;
     lastProxyEnable := v;
     lastProxyServer := lastProxyServer s |}.

Definition set_lastProxyServer (v : string) (s : State) : State :=
  {| listenerEnabled := listenerEnabled s;
     lastProxyEnable := lastProxyEnable s;
     lastProxyServer := v |}.

(** ** The monad of the first instance: state, output, exit and blocking *)

Inductive result (A : Type) : Type :=
| Done (a : A) (s : State)   (* returned [a], leaving the state [s] *)
| Exited (code : Z)          (* os.Exit(code): the process is gone *)
| Blocked.                   (* stuck in a call that never returns *)

Arguments Done {A} a s.
Arguments Exited {A} code.
Arguments Blocked {A}.

Definition M (A : Type) : Type := State -> trace * result A.

Definition ret {A} (a : A) : M A := fun s => ([], Done a s).

Definition bind {A B} (m : M A) (f : A -> M B) : M B :=
  fun s =>
    match m s with
    | (t1, Done a s1) => let (t2, r) := f a s1 in (t1 ++ t2, r)
    | (t1, Exited c) => (t1, Exited c)
    | (t1, Blocked) => (t1, Blocked)
    end.

Notation "x <- m ;; k" := (bind m (fun x => k))
  (at level 61, m at next level, right associativity).
Notation "m ;;; k" := (bind m (fun _ => k))
  (at level 61, right associativity).

Definition get {A} (proj : State -> A) : M A := fun s => ([], Done (proj s) s).
Definition modify (f : State -> State) : M unit := fun s => ([], Done tt (f s)).
Definition emit (e : event) : M unit := fun s => ([e], Done tt s).
Definition println (ops : list operand) : M unit := emit (Println ops).
Definition os_Exit {A} (code : Z) : M A := fun _ => ([], Exited code).
Definition block {A} : M A := fun _ => ([], Blocked).

(** ** startListening, stopListening *)

Definition startListening : M unit :=
  modify (set_listenerEnabled true) ;;;
  println [Str "Now listening to proxy changes"].

Definition stopListening : M unit :=
  modify (set_listenerEnabled false) ;;;
  println [Str "No longer listening to proxy changes"].

(** ** executeCommand

    The [switch] has three cases and no default; a case that does not return
    falls out of the [switch] to the final [return true]. *)

Definition executeCommand (cmd : byte) : M bool :=
  if cmd =? CMD_START then
    en <- get listenerEnabled ;;
    if en then ret false
    else startListening ;;; ret true
  else if cmd =? CMD_STOP then
    en <- get listenerEnabled ;;
    if negb en then ret false
    else stopListening ;;; ret true
  else if cmd =? CMD_QUIT then
    println [Str "Exiting..."] ;;;
    os_Exit 0
  else
    ret true.

(** ** parseCommand

    [args] is [os.Args]: the program name followed by the arguments. *)

Definition parseCommand (args : list string) : byte * option error :=
  if (List.length args <? 2)%nat then (NO_COMMAND, None)
  else
    let arg := nth 1 args EmptyString in
    if (arg =? "-stop")%string then (CMD_STOP, None)
    else if (arg =? "-start")%string then (CMD_START, None)
    else if (arg =? "-quit")%string then (CMD_QUIT, None)
    else (NO_COMMAND, Some (ErrMsg ("unknown command: " ++ arg)%string)).

(** ** clientMain

    A later instance.  It owns no monitoring state, so it is a plain function
    to its trace.  The environment supplies the outcome of [DialPipe], of the
    [Write] and of the [Read] (the byte the first instance answers, or an
    error).  The deferred [Close] runs on every path after a successful
    dial. *)

Definition clientMain (dial : option error) (args : list string)
    (writeErr : option error) (response : byte + error) : trace :=
  match dial with
  | Some err => [Println [Str "Failed to dial to pipe"; Err err]]
  | None =>
    (let (parsedCmd, perr) := parseCommand args in
     match perr with
     | Some err =>
         [Println [Str "Failed to parse command line arguments:"; Err err]]
     | None =>
         PipeWrite parsedCmd ::
         match writeErr with
         | Some err => [Println [Str "Failed to write bytes"; Err err]]
         | None =>
           if parsedCmd =? CMD_QUIT then []
           else
             match response with
             | inr err =>
                 [Println [Str "Failed to read response from main program instance:";
                           Err err]]
             | inl reply =>
                 let success := reply =? 1 in
                 if parsedCmd =? CMD_START then
                   [Println [Str (if success
                                  then "Started monitoring proxy settings."
                                  else "Already monitoring proxy settings.")]]
                 else if parsedCmd =? CMD_STOP then
                   [Println [Str (if success
                                  then "Stopped monitoring proxy settings"
                                  else "Proxy monitor is already turned off.")]]
                 else if parsedCmd =? CMD_QUIT then
                   [Println [Str "Quitting monitor program..."]]
                 else []
             end
         end
     end) ++ [PipeClose]
  end.

(** ** The registry key, as one poll tick sees it

    [ProxyEnable] is what [key.GetIntegerValue("ProxyEnable")] answers, the
    value or the error.  [ProxyServer] is what
    [key.GetStringValue("ProxyServer")] answers: the string together with the
    error, because the code goes on to use the string when the error is
    [ErrNotExist] (the registry package returns the empty string with every
    error). *)

Record registry : Type := mkRegistry {
  ProxyEnable : Z + error;
  ProxyServer : string * option error
}.

Definition TAB : string := String "009"%char EmptyString.
Definition NL : string := String "010"%char EmptyString.

(** The two formats given to [fmt.Fprintf]. *)
Definition proxy_off_line (formattedTime : string) : string :=
  (formattedTime ++ TAB ++ "proxy off" ++ NL)%string.

Definition proxy_on_line (formattedTime proxyServer : string) : string :=
  (formattedTime ++ TAB ++ "proxy on, " ++ proxyServer ++ NL)%string.

(** ** checkForChanges

    The closure inside [listenToProxyChanges].  [formattedTime] is
    [time.Now()] in the ANSIC layout.  The result is [true] when the loop
    should go on and [false] when it should end. *)

Definition checkForChanges (key : registry) (formattedTime : string) : M bool :=
  en <- get listenerEnabled ;;
  if negb en then ret true
  else
    match ProxyEnable key with
    | inr err =>
        println [Str "Failed to read ProxyEnable:"; Err err] ;;; ret false
    | inl proxyEnable =>
        let (proxyServer, serr) := ProxyServer key in
        ok <- match serr with
              | None => ret true
              | Some err =>
                  if is_ErrNotExist err then
                    modify (set_lastProxyServer EmptyString) ;;; ret true
                  else
                    println [Str "Failed to read ProxyServer:"; Err err] ;;;
                    ret false
              end ;;
        if negb ok then ret false
        else
          lastEnable <- get lastProxyEnable ;;
          lastServer <- get lastProxyServer ;;
          if (proxyEnable =? lastEnable) && (proxyServer =? lastServer)%string
          then ret true
          else
            modify (set_lastProxyEnable proxyEnable) ;;;
            modify (set_lastProxyServer proxyServer) ;;;
            if proxyEnable =? 0 then
              emit (LogWrite (proxy_off_line formattedTime)) ;;; ret true
            else
              emit (LogWrite (proxy_on_line formattedTime proxyServer)) ;;;
              ret true
    end.

(** ** listenToProxyChanges

    One [tick] per iteration of the [for] loop.  The loop [Returned] when
    [checkForChanges] answered [false]; it is [Pending] when the ticks given
    ran out with the loop still going.  The one-second sleep between two
    ticks is not modelled. *)

Record tick : Type := mkTick {
  tick_key : registry;
  tick_time : string
}.

Inductive loop_end : Type := Returned | Pending.

Fixpoint pollLoop (ticks : list tick) : M loop_end :=
  match ticks with
  | [] => ret Pending
  | t :: rest =>
      continue <- checkForChanges (tick_key t) (tick_time t) ;;
      if continue then pollLoop rest else ret Returned
  end.

Definition listenToProxyChanges (openKey : option error)
    (openLogFile : string + error) (ticks : list tick) : M loop_end :=
  match openKey with
  | Some err => println [Str "Error opening registry key"; Err err] ;;; ret Returned
  | None =>
      match openLogFile with
      | inr err => println [Str "Failed to open log file:"; Err err] ;;; ret Returned
      | inl name =>
          println [Str "Logging output to"; Str name] ;;;
          modify (set_lastProxyEnable 0) ;;;
          modify (set_lastProxyServer EmptyString) ;;;
          pollLoop ticks
      end
  end.

(** ** listenToNamedPipe

    One [accept_result] per iteration of the [for] loop: [Accept] fails, or
    gives a connection.  The connection's [Read] delivers the client's byte
    into the one-byte buffer, fails, or never returns (no deadline is set);
    its [Write] succeeds or fails.  The body of the loop is
    [pipeIteration]: the read, the execution, the write and the close all
    happen in the loop itself, before the next [Accept]. *)

Inductive read_result : Type :=
| ReadByte (b : byte)
| ReadError (err : error)
| ReadNever.

Record conn : Type := mkConn {
  conn_Read : read_result;
  conn_Write : option error
}.

Inductive accept_result : Type :=
| AcceptConn (c : conn)
| AcceptError (err : error).

Definition pipeIteration (a : accept_result) : M unit :=
  match a with
  | AcceptError err => println [Str "Failed to read pipe input"; Err err]
  | AcceptConn c =>
      match conn_Read c with
      | ReadNever => block
      | ReadError err =>
          println [Str "Failed to read"; Err err] ;;; emit PipeClose
      | ReadByte cmd =>
          execRes <- executeCommand cmd ;;
          let reply := if execRes : bool then 1 else 0 in
          emit (PipeWrite reply) ;;;
          emit PipeClose ;;;
          match conn_Write c with
          | None => ret tt
          | Some err => println [Str "Failed to write pipe response:"; Err err]
          end
      end
  end.

Fixpoint acceptLoop (accepts : list accept_result) : M loop_end :=
  match accepts with
  | [] => ret Pending
  | a :: rest => pipeIteration a ;;; acceptLoop rest
  end.

Definition listenToNamedPipe (listenPipe : option error)
    (accepts : list accept_result) : M loop_end :=
  match listenPipe with
  | Some err => println [Str "Failed to listen to pipe!"; Err err] ;;; ret Returned
  | None => acceptLoop accepts
  end.

(** ** serverMain

    [serverStartup] is [serverMain] up to the call of
    [listenToProxyChanges]; it answers [false] when [serverMain] returned
    before that call.  The two [go] statements start the pipe listener and
    the tray icon as goroutines of their own; they are not part of this
    sequential path. *)

Definition serverStartup (args : list string) : M bool :=
  let (cmd, err) := parseCommand args in
  match err with
  | Some e => println [Str "Failed to read command line arguments"; Err e]
  | None => ret tt
  end ;;;
  if cmd =? CMD_QUIT then ret false
  else
    (if (cmd =? NO_COMMAND) || (cmd =? CMD_START) then startListening
     else ret tt) ;;;
    ret true.

Definition serverMain (args : list string) (openKey : option error)
    (openLogFile : string + error) (ticks : list tick) : M loop_end :=
  reached <- serverStartup args ;;
  if reached then listenToProxyChanges openKey openLogFile ticks
  else ret Returned.

(** ** Observations on a run *)

(** The value a computation returned, if it returned. *)
Definition returned {A} (r : trace * result A) : option A :=
  match snd r with Done a _ => Some a | _ => None end.

(** The state a computation left, if it returned. *)
Definition final {A} (r : trace * result A) : option State :=
  match snd r with Done _ s => Some s | _ => None end.

(** The same command issued twice in a row, with both results. *)
Definition issueTwice (cmd : byte) : M (bool * bool) :=
  r1 <- executeCommand cmd ;;
  r2 <- executeCommand cmd ;;
  ret (r1, r2).

(** The state a command aims at: START arms, STOP disarms. *)
Definition targetState (cmd : byte) : bool := cmd =? CMD_START.

(** A tick's reads end the poll loop: the integer value cannot be read, or
    the string value fails with an error other than [ErrNotExist]. *)
Definition fatal_read (key : registry) : bool :=
  match ProxyEnable key with
  | inr _ => true
  | inl _ =>
      match snd (ProxyServer key) with
      | Some err => negb (is_ErrNotExist err)
      | None => false
      end
  end.

(** What the accept loop does with one more connection after the
    connections [pre]: nothing, when [pre] already ended the goroutine. *)
Definition after {A} (r : trace * result A)
    (k : trace -> State -> trace * result A) : trace * result A :=
  match r with
  | (t, Done _ s) => k t s
  | other => other
  end.

(** ** createSystemTrayIcon

    The goroutine started in the tray's ready callback: one [menu_item] per
    iteration of its [for]/[select] loop, the channel that delivered a
    click.  The icon, the title and the menu entries are set up once and
    have no part in the state. *)

Inductive menu_item : Type := MenuStart | MenuStop | MenuQuit.

Definition menu_item_eq_dec (a b : menu_item) : {a = b} + {a <> b}.
Proof. decide equality. Defined.

Definition trayClick (m : menu_item) : M unit :=
  match m with
  | MenuStart =>
      en <- get listenerEnabled ;;
      if negb en then startListening else ret tt
  | MenuStop =>
      en <- get listenerEnabled ;;
      if en then stopListening else ret tt
  | MenuQuit => os_Exit 0
  end.

Fixpoint trayLoop (clicks : list menu_item) : M loop_end :=
  match clicks with
  | [] => ret Pending
  | m :: rest => trayClick m ;;; trayLoop rest
  end.

(** ** main

    [lock] is the error of [singleinstance.CreateLockFile]: an error means
    another instance holds the lock file and this process is a later
    instance.  Every process starts with the package-level variable at its
    initial value, so the run starts in [initState]. *)

Definition main (lock : option error) (args : list string)
    (dial : option error) (writeErr : option error) (response : byte + error)
    (openKey : option error) (openLogFile : string + error)
    (ticks : list tick) : trace * result loop_end :=
  match lock with
  | Some _ => (clientMain dial args writeErr response, Done Returned initState)
  | None => serverMain args openKey openLogFile ticks initState
  end.

(** ** The two instances joined by the pipe

    One later instance, launched with [args], meets one iteration of the
    first instance's accept loop in the state [s]; dial, accept and the
    writes succeed.  The pipe hands the byte the client wrote to the
    server's [Read] and the byte the server wrote to the client's [Read];
    a [Read] on a side whose peer wrote nothing fails with [eof].  The
    answer is the client's trace and the server's run. *)

Definition session (eof : error) (args : list string) (s : State)
    : trace * (trace * result unit) :=
  let server :=
    pipeIteration
      (AcceptConn
         (mkConn match wire (clientMain None args None (inr eof)) with
                 | cmd :: _ => ReadByte cmd
                 | [] => ReadError eof
                 end
                 None)) s in
  (clientMain None args None
     match wire (fst server) with
     | reply :: _ => inl reply
     | [] => inr eof
     end,
   server).

(** ** What a sequence of commands leaves in the armed flag *)

(** START arms, STOP disarms, every other byte leaves the flag. *)
Definition commandEffect (cmd : byte) (en : bool) : bool :=
  if cmd =? CMD_START then true
  else if cmd =? CMD_STOP then false
  else en.

Definition acceptEffect (a : accept_result) (en : bool) : bool :=
  match a with
  | AcceptConn c =>
      match conn_Read c with
      | ReadByte cmd => commandEffect cmd en
      | _ => en
      end
  | AcceptError _ => en
  end.

(** The iterations the listener gets through: all but a connection that
    delivers QUIT and a connection whose read never returns. *)
Definition survivable (a : accept_result) : bool :=
  match a with
  | AcceptConn c =>
      match conn_Read c with
      | ReadByte cmd => negb (cmd =? CMD_QUIT)
      | ReadError _ => true
      | ReadNever => false
      end
  | AcceptError _ => true
  end.


(** The command a tray entry stands for. *)
Definition menuCommand (m : menu_item) : byte :=
  match m with
  | MenuStart => CMD_START
  | MenuStop => CMD_STOP
  | MenuQuit => CMD_QUIT
  end.

(** The line a tick logs for the values it read. *)
Definition change_line (now : string) (proxyEnable : Z) (proxyServer : string)
    : string :=
  if proxyEnable =? 0 then proxy_off_line now
  else proxy_on_line now proxyServer.

(** The values read are those in the cache. *)
Definition same_as_cache (proxyEnable : Z) (proxyServer : string) (s : State)
    : bool :=
  (proxyEnable =? lastProxyEnable s) && (proxyServer =? lastProxyServer s)%string.

Definition count_PipeClose (t : trace) : nat :=
  List.length (filter (fun e => match e with PipeClose => true | _ => false end) t).

(** ** What the loops are expected to put out *)

(** The reply to one byte read, with the flag at [en]: START and STOP are
    answered 1 when they change the flag and 0 when they do not, every other
    byte that is answered at all is answered 1. *)
Definition replyTo (cmd : byte) (en : bool) : byte :=
  if cmd =? CMD_START then (if en then 0 else 1)
  else if cmd =? CMD_STOP then (if en then 1 else 0)
  else 1.

(** The replies to a run of iterations, up to the first one the listener
    does not get through. *)
Fixpoint replies (accepts : list accept_result) (en : bool) : list byte :=
  match accepts with
  | [] => []
  | a :: rest =>
      if survivable a then
        match a with
        | AcceptConn (mkConn (ReadByte cmd) _) => [replyTo cmd en]
        | _ => []
        end ++ replies rest (acceptEffect a en)
      else []
  end.

(** A tick on which both reads succeed, with the values read. *)
Definition readTick (snap : Z * string * string) : tick :=
  let '(proxyEnable, proxyServer, now) := snap in
  mkTick (mkRegistry (inl proxyEnable) (proxyServer, None)) now.

(** The lines for a run of values read: one line for each pair of values
    that differs from the pair before it, starting from [prev]. *)
Fixpoint change_lines (prev : Z * string) (snaps : list (Z * string * string))
    : list string :=
  match snaps with
  | [] => []
  | (proxyEnable, proxyServer, now) :: rest =>
      (if (proxyEnable =? fst prev) && (proxyServer =? snd prev)%string
       then []
       else [change_line now proxyEnable proxyServer])
      ++ change_lines (proxyEnable, proxyServer) rest
  end.

(** The pair of values a run of reads ends on. *)
Definition last_values (prev : Z * string) (snaps : list (Z * string * string))
    : Z * string :=
  fold_left (fun _ snap => fst snap) snaps prev.

Ltac run :=
  cbv [bind ret get modify emit println os_Exit block
       startListening stopListening].

(** * Properties *)

(** ** The executor *)

Lemma executeCommand_START (s : State) :
  executeCommand CMD_START s =
  if listenerEnabled s then ([], Done false s)
  else ([Println [Str "Now listening to proxy changes"]],
        Done true (set_listenerEnabled true s)).
Proof.
  unfold executeCommand; simpl; run.
  destruct (listenerEnabled s); reflexivity.
Qed.

Lemma executeCommand_STOP (s : State) :
  executeCommand CMD_STOP s =
  if listenerEnabled s
  then ([Println [Str "No longer listening to proxy changes"]],
        Done true (set_listenerEnabled false s))
  else ([], Done false s).
Proof.
  unfold executeCommand; simpl; run.
  destruct (listenerEnabled s); reflexivity.
Qed.

Lemma executeCommand_QUIT (s : State) :
  executeCommand CMD_QUIT s = ([Println [Str "Exiting..."]], Exited 0).
Proof. reflexivity. Qed.

Lemma executeCommand_other (cmd : byte) (s : State) :
  cmd <> CMD_STOP -> cmd <> CMD_QUIT -> cmd <> CMD_START ->
  executeCommand cmd s = ([], Done true s).
Proof.
  intros Hstop Hquit Hstart. unfold executeCommand.
  destruct (Z.eqb_spec cmd CMD_START); [contradiction|].
  destruct (Z.eqb_spec cmd CMD_STOP); [contradiction|].
  destruct (Z.eqb_spec cmd CMD_QUIT); [contradiction|].
  reflexivity.
Qed.

(** C1.  For START and for STOP, in every state: when the armed flag is
    already what the command aims at, the command returns [false], prints
    nothing and leaves the whole state as it was; otherwise it returns
    [true], the armed flag of the state it leaves is the negation of the
    flag before, which is what the command aims at, and the two cached
    values are as before. *)
Theorem executeCommand_noop_or_flip (cmd : byte) (s : State) :
  cmd = CMD_START \/ cmd = CMD_STOP ->
  (listenerEnabled s = targetState cmd ->
   executeCommand cmd s = ([], Done false s)) /\
  (listenerEnabled s <> targetState cmd ->
   exists t s1,
     executeCommand cmd s = (t, Done true s1) /\
     listenerEnabled s1 = negb (listenerEnabled s) /\
     listenerEnabled s1 = targetState cmd /\
     lastProxyEnable s1 = lastProxyEnable s /\
     lastProxyServer s1 = lastProxyServer s).
Proof.
  intros [-> | ->].
  - rewrite executeCommand_START. unfold targetState; simpl.
    destruct s as [[|] le ls]; simpl; split; intros H;
      try discriminate; try (exfalso; apply H; reflexivity);
      try reflexivity.
    do 2 eexists. repeat split.
  - rewrite executeCommand_STOP. unfold targetState; simpl.
    destruct s as [[|] le ls]; simpl; split; intros H;
      try discriminate; try (exfalso; apply H; reflexivity);
      try reflexivity.
    do 2 eexists. repeat split.
Qed.

Lemma executeCommand_noop_or_flip_witness :
  executeCommand CMD_START initState = ([], Done false initState) /\
  (exists t s1,
     executeCommand CMD_STOP initState = (t, Done true s1) /\
     listenerEnabled s1 = negb (listenerEnabled initState) /\
     listenerEnabled s1 = targetState CMD_STOP /\
     lastProxyEnable s1 = lastProxyEnable initState /\
     lastProxyServer s1 = lastProxyServer initState).
Proof.
  split.
  - apply (proj1 (executeCommand_noop_or_flip CMD_START initState
                    (or_introl eq_refl))).
    reflexivity.
  - apply (proj2 (executeCommand_noop_or_flip CMD_STOP initState
                    (or_intror eq_refl))).
    simpl. discriminate.
Defined.

(** C9, as stated, fails in the initial state of the first instance: the
    flag starts armed, so START issued twice answers (false, false), not
    (true, false). *)
Lemma issueTwice_START_initState_not_true_false :
  issueTwice CMD_START initState = ([], Done (false, false) initState) /\
  returned (issueTwice CMD_START initState) <> Some (true, false).
Proof. split; [reflexivity | discriminate]. Qed.

(** C9, amended.  In every state, the same command issued twice in a row
    answers [false] the second time; the first answer is [true] exactly
    when the flag was not yet what the command aims at: START twice answers
    (not armed, false) and leaves the flag armed, STOP twice answers
    (armed, false) and leaves it disarmed. *)
Theorem issueTwice_results (s : State) :
  returned (issueTwice CMD_START s) = Some (negb (listenerEnabled s), false) /\
  final (issueTwice CMD_START s) = Some (set_listenerEnabled true s) /\
  returned (issueTwice CMD_STOP s) = Some (listenerEnabled s, false) /\
  final (issueTwice CMD_STOP s) = Some (set_listenerEnabled false s).
Proof.
  destruct s as [[|] e a]; repeat split; reflexivity.
Qed.

(** ** The pipe listener *)

Lemma bind_Done {A B} (m : M A) (f : A -> M B) s t a s1 :
  m s = (t, Done a s1) ->
  bind m f s = (t ++ fst (f a s1), snd (f a s1)).
Proof. intros H. unfold bind. rewrite H. destruct (f a s1); reflexivity. Qed.

(** Running the loop on [pre ++ rest] is running it on [pre] and, when that
    left the goroutine alive, going on with [rest]. *)
Lemma acceptLoop_app (pre rest : list accept_result) (s : State) :
  acceptLoop (pre ++ rest) s =
  after (acceptLoop pre s)
        (fun t s1 => (t ++ fst (acceptLoop rest s1), snd (acceptLoop rest s1))).
Proof.
  revert s. induction pre as [| a pre IH]; intros s.
  - simpl. destruct (acceptLoop rest s); reflexivity.
  - change (acceptLoop ((a :: pre) ++ rest) s)
      with (bind (pipeIteration a) (fun _ => acceptLoop (pre ++ rest)) s).
    change (acceptLoop (a :: pre) s)
      with (bind (pipeIteration a) (fun _ => acceptLoop pre) s).
    unfold bind.
    destruct (pipeIteration a s) as [t1 [[] s1 | c |]]; try reflexivity.
    rewrite IH. unfold after.
    destruct (acceptLoop pre s1) as [t2 [e s2 | c |]]; simpl; try reflexivity.
    rewrite app_assoc. reflexivity.
Qed.

Lemma pipeIteration_QUIT (w : option error) (s : State) :
  pipeIteration (AcceptConn (mkConn (ReadByte CMD_QUIT) w)) s =
  ([Println [Str "Exiting..."]], Exited 0).
Proof. reflexivity. Qed.

Lemma pipeIteration_ReadNever (w : option error) (s : State) :
  pipeIteration (AcceptConn (mkConn ReadNever w)) s = ([], Blocked).
Proof. reflexivity. Qed.

(** C6.  A connection whose byte is QUIT, accepted in any state and after
    any connections [pre] that left the listener running: the executor
    prints its line and the process exits with status 0; nothing is written
    to the pipe for that connection, and none of the connections [rest]
    behind it is served, so the bytes on the wire are those of [pre]
    alone. *)
Theorem quit_exits_before_any_reply
    (pre rest : list accept_result) (w : option error) (s : State) :
  let quit := AcceptConn (mkConn (ReadByte CMD_QUIT) w) in
  pipeIteration quit s = ([Println [Str "Exiting..."]], Exited 0) /\
  acceptLoop (pre ++ quit :: rest) s =
    after (acceptLoop pre s)
          (fun t _ => (t ++ [Println [Str "Exiting..."]], Exited 0)) /\
  wire (fst (acceptLoop (pre ++ quit :: rest) s)) =
    wire (fst (acceptLoop pre s)).
Proof.
  intros quit. split; [reflexivity|].
  assert (E : acceptLoop (pre ++ quit :: rest) s =
              after (acceptLoop pre s)
                (fun t _ => (t ++ [Println [Str "Exiting..."]], Exited 0))).
  { rewrite acceptLoop_app.
    destruct (acceptLoop pre s) as [t [e s1 | c |]]; reflexivity. }
  split; [exact E|].
  rewrite E. destruct (acceptLoop pre s) as [t [e s1 | c |]]; simpl;
    try reflexivity.
  unfold wire. rewrite flat_map_app. simpl. apply app_nil_r.
Qed.

(** C10.  A byte that is none of STOP, QUIT, START (the NONE byte 0 among
    them): the executor returns [true], prints nothing and leaves the whole
    state as it was, and the listener answers the connection with the
    byte 1. *)
Theorem other_byte_is_answered_success
    (cmd : byte) (w : option error) (s : State) :
  cmd <> CMD_STOP -> cmd <> CMD_QUIT -> cmd <> CMD_START ->
  executeCommand cmd s = ([], Done true s) /\
  wire (fst (pipeIteration (AcceptConn (mkConn (ReadByte cmd) w)) s)) = [1] /\
  final (pipeIteration (AcceptConn (mkConn (ReadByte cmd) w)) s) = Some s.
Proof.
  intros Hstop Hquit Hstart.
  pose proof (executeCommand_other cmd s Hstop Hquit Hstart) as E.
  split; [exact E|].
  unfold pipeIteration; cbn [conn_Read conn_Write].
  rewrite (bind_Done _ _ _ _ _ _ E).
  destruct w; split; reflexivity.
Qed.

Lemma other_byte_is_answered_success_witness :
  executeCommand NO_COMMAND initState = ([], Done true initState) /\
  wire (fst (pipeIteration (AcceptConn (mkConn (ReadByte NO_COMMAND) None))
                           initState)) = [1] /\
  final (pipeIteration (AcceptConn (mkConn (ReadByte NO_COMMAND) None))
                       initState) = Some initState.
Proof.
  apply (other_byte_is_answered_success NO_COMMAND None initState);
    discriminate.
Defined.

(** C8, as stated, fails: behind a client that connected and never sends
    its byte, a second client that sends STOP to the armed first instance is
    not served.  The listener is blocked, nothing is written to the pipe
    and nothing is printed. *)
Lemma second_client_behind_hung_client_not_served :
  acceptLoop [AcceptConn (mkConn ReadNever None);
              AcceptConn (mkConn (ReadByte CMD_STOP) None)] initState
  = ([], Blocked) /\
  wire (fst (acceptLoop [AcceptConn (mkConn (ReadByte CMD_STOP) None)]
                        initState)) = [1].
Proof. split; reflexivity. Qed.

(** C8, amended.  The listener handles one connection at a time, inside the
    accept loop: a connection whose read never returns, accepted after any
    connections [pre] that left the listener running, blocks the loop for
    good.  Whatever connections [rest] come behind it are never accepted:
    the run is the run on [pre], ending [Blocked]. *)
Theorem hung_client_blocks_listener
    (pre rest : list accept_result) (w : option error) (s : State) :
  acceptLoop (pre ++ AcceptConn (mkConn ReadNever w) :: rest) s =
  after (acceptLoop pre s) (fun t _ => (t, Blocked)).
Proof.
  rewrite acceptLoop_app.
  destruct (acceptLoop pre s) as [t [e s1 | c |]]; simpl; try reflexivity.
  rewrite app_nil_r. reflexivity.
Qed.

(** ** The change monitor *)

(** A disarmed tick does nothing at all. *)
Lemma checkForChanges_disarmed (key : registry) (now : string) (s : State) :
  listenerEnabled s = false ->
  checkForChanges key now s = ([], Done true s).
Proof. intros H. unfold checkForChanges; run. rewrite H. reflexivity. Qed.

(** Whenever the string value is not reported as missing, a tick either
    leaves the state alone and logs nothing, or logs exactly one line and
    caches the values it has just read. *)
Lemma checkForChanges_cache_when_present
    (key : registry) (now : string) (s : State) :
  snd (ProxyServer key) <> Some ErrNotExist ->
  (logged (fst (checkForChanges key now s)) = [] /\
   final (checkForChanges key now s) = Some s) \/
  (exists v,
     ProxyEnable key = inl v /\
     List.length (logged (fst (checkForChanges key now s))) = 1%nat /\
     final (checkForChanges key now s) =
       Some (mkState (listenerEnabled s) v (fst (ProxyServer key)))).
Proof.
  destruct s as [en le ls], key as [pe [sv serr]]. simpl. intros Hne.
  unfold checkForChanges; run; simpl.
  destruct en; simpl; [| left; split; reflexivity].
  destruct pe as [v | e]; simpl; [| left; split; reflexivity].
  destruct serr as [[| m] |]; simpl.
  - exfalso. apply Hne. reflexivity.
  - left; split; reflexivity.
  - destruct (Z.eqb_spec v le) as [-> | Hv]; simpl.
    + destruct (String.eqb_spec sv ls) as [-> | Hs]; simpl.
      * left; split; reflexivity.
      * right. exists le. destruct (le =? 0); repeat split; reflexivity.
    + right. exists v. destruct (v =? 0); repeat split; reflexivity.
Qed.

(** C3, evaluated where it fails.  The cache holds a last logged
    observation with a non-empty address; the armed tick reads the same
    flag and finds the string value missing.  The branch for the missing
    value stores the empty string into the cached address before the
    comparison; the comparison then finds no change, nothing is logged, and
    the cached address is no longer the last logged one. *)
Theorem checkForChanges_missing_address_overwrites_cache
    (flag : Z) (now cached : string) :
  cached <> EmptyString ->
  checkForChanges (mkRegistry (inl flag) (EmptyString, Some ErrNotExist))
                  now (mkState true flag cached)
  = ([], Done true (mkState true flag EmptyString)) /\
  lastProxyServer (mkState true flag EmptyString) <> cached.
Proof.
  intros Hne. split.
  - unfold checkForChanges; run; simpl.
    rewrite Z.eqb_refl. reflexivity.
  - simpl. intros H. apply Hne. symmetry. exact H.
Qed.

Lemma checkForChanges_missing_address_overwrites_cache_witness :
  checkForChanges (mkRegistry (inl 1) (EmptyString, Some ErrNotExist))
                  "Mon Jan  2 15:04:05 2006"
                  (mkState true 1 "10.0.0.1:8080")
  = ([], Done true (mkState true 1 EmptyString)) /\
  lastProxyServer (mkState true 1 EmptyString) <> "10.0.0.1:8080".
Proof.
  apply (checkForChanges_missing_address_overwrites_cache
           1 "Mon Jan  2 15:04:05 2006" "10.0.0.1:8080").
  discriminate.
Defined.

(** C4, evaluated where it fails.  Armed, the flag reads 1 as cached, the
    string value is missing: whatever address was cached, the tick appends
    no line to the log and leaves the cached address empty. *)
Theorem checkForChanges_missing_address_logs_nothing
    (now cached : string) :
  logged (fst (checkForChanges (mkRegistry (inl 1) (EmptyString, Some ErrNotExist))
                               now (mkState true 1 cached))) = [] /\
  final (checkForChanges (mkRegistry (inl 1) (EmptyString, Some ErrNotExist))
                         now (mkState true 1 cached))
  = Some (mkState true 1 EmptyString).
Proof. split; reflexivity. Qed.

(** What an armed tick answers. *)
Lemma checkForChanges_armed_returned
    (key : registry) (now : string) (s : State) :
  listenerEnabled s = true ->
  returned (checkForChanges key now s) = Some (negb (fatal_read key)).
Proof.
  destruct s as [en le ls], key as [pe [sv serr]]. simpl. intros ->.
  unfold checkForChanges, fatal_read; run; simpl.
  destruct pe as [v | e]; simpl; [| reflexivity].
  destruct serr as [[| m] |]; simpl; try reflexivity.
  - destruct ((v =? le) && (sv =? EmptyString)%string); [reflexivity|].
    destruct (v =? 0); reflexivity.
  - destruct ((v =? le) && (sv =? ls)%string); [reflexivity|].
    destruct (v =? 0); reflexivity.
Qed.

(** C7, as stated, fails: on an armed tick the flag is read (value 0) and
    the read of the string value fails with an error other than
    [ErrNotExist]; the loop ends although the read of the flag did not
    fail. *)
Lemma pollLoop_ends_on_address_read_error :
  let key := mkRegistry (inl 0) (EmptyString, Some (ErrMsg "Access is denied.")) in
  ProxyEnable key = inl 0 /\
  listenerEnabled initState = true /\
  pollLoop [mkTick key "Mon Jan  2 15:04:05 2006"] initState
  = ([Println [Str "Failed to read ProxyServer:";
               Err (ErrMsg "Access is denied.")]],
     Done Returned initState).
Proof. repeat split; reflexivity. Qed.

(** An armed tick answers whether the loop goes on, and leaves the flag
    armed. *)
Lemma checkForChanges_armed_step (key : registry) (now : string) (s : State) :
  listenerEnabled s = true ->
  exists t s1,
    checkForChanges key now s = (t, Done (negb (fatal_read key)) s1) /\
    listenerEnabled s1 = true.
Proof.
  destruct s as [en le ls], key as [pe [sv serr]]. simpl. intros ->.
  unfold checkForChanges, fatal_read; run; simpl.
  destruct pe as [v | e]; simpl; [| do 2 eexists; split; reflexivity].
  destruct serr as [[| m] |]; simpl.
  - destruct ((v =? le) && (sv =? EmptyString)%string);
      [| destruct (v =? 0)]; do 2 eexists; split; reflexivity.
  - do 2 eexists; split; reflexivity.
  - destruct ((v =? le) && (sv =? ls)%string);
      [| destruct (v =? 0)]; do 2 eexists; split; reflexivity.
Qed.

(** An armed loop, over any run of ticks, returns exactly when one of the
    ticks has a fatal read. *)
Lemma pollLoop_armed_returned (ticks : list tick) (s : State) :
  listenerEnabled s = true ->
  returned (pollLoop ticks s) =
    Some (if existsb (fun t => fatal_read (tick_key t)) ticks
          then Returned else Pending).
Proof.
  revert s. induction ticks as [| k rest IH]; intros s Harmed; [reflexivity|].
  destruct (checkForChanges_armed_step (tick_key k) (tick_time k) s Harmed)
    as (t1 & s1 & E & Harmed1).
  change (pollLoop (k :: rest) s)
    with (bind (checkForChanges (tick_key k) (tick_time k))
               (fun continue =>
                  if continue : bool then pollLoop rest else ret Returned) s).
  unfold bind. rewrite E. simpl existsb.
  destruct (fatal_read (tick_key k)); simpl; [reflexivity|].
  specialize (IH s1 Harmed1). unfold returned in *.
  destruct (pollLoop rest s1) as [t2 r2]. simpl in *. exact IH.
Qed.

(** An armed loop stops at the first tick with a fatal read: the ticks
    behind it are never run. *)
Lemma pollLoop_armed_stops (pre : list tick) (t : tick) (rest : list tick)
    (s : State) :
  listenerEnabled s = true ->
  fatal_read (tick_key t) = true ->
  pollLoop (pre ++ t :: rest) s = pollLoop (pre ++ [t]) s.
Proof.
  intros Harmed Hfatal. revert s Harmed.
  induction pre as [| k pre IH]; intros s Harmed.
  - destruct (checkForChanges_armed_step (tick_key t) (tick_time t) s Harmed)
      as (t1 & s1 & E & _).
    simpl. unfold bind. rewrite E, Hfatal. reflexivity.
  - destruct (checkForChanges_armed_step (tick_key k) (tick_time k) s Harmed)
      as (t1 & s1 & E & Harmed1).
    simpl. unfold bind. rewrite E.
    destruct (negb (fatal_read (tick_key k))); [| reflexivity].
    rewrite (IH s1 Harmed1). reflexivity.
Qed.

(** C7, amended.  With the flag armed, over any run of ticks, the loop ends
    exactly when some tick's read of the flag fails or its read of the
    string value fails with an error other than [ErrNotExist]; as long as
    no tick has such a read the loop goes on, however many ticks pass.  It
    ends at the first such tick, whatever ticks would follow.  A missing
    string value alone is never such a read. *)
Theorem pollLoop_ends_iff_fatal_read (ticks : list tick) (s : State) :
  listenerEnabled s = true ->
  returned (pollLoop ticks s) =
    Some (if existsb (fun t => fatal_read (tick_key t)) ticks
          then Returned else Pending) /\
  (forall pre t rest,
     ticks = pre ++ t :: rest ->
     fatal_read (tick_key t) = true ->
     pollLoop ticks s = pollLoop (pre ++ [t]) s) /\
  (forall v sv, fatal_read (mkRegistry (inl v) (sv, Some ErrNotExist)) = false).
Proof.
  intros Harmed. split; [| split].
  - apply pollLoop_armed_returned. exact Harmed.
  - intros pre t rest -> Hfatal. apply pollLoop_armed_stops; assumption.
  - reflexivity.
Qed.

Lemma pollLoop_ends_iff_fatal_read_witness :
  returned (pollLoop [mkTick (mkRegistry (inl 1) ("a", None)) "t1";
                      mkTick (mkRegistry (inl 1) (EmptyString, Some ErrNotExist)) "t2";
                      mkTick (mkRegistry (inr (ErrMsg "gone")) (EmptyString, None)) "t3";
                      mkTick (mkRegistry (inl 0) ("a", None)) "t4"]
                     initState) = Some Returned /\
  pollLoop [mkTick (mkRegistry (inl 1) ("a", None)) "t1";
            mkTick (mkRegistry (inl 1) (EmptyString, Some ErrNotExist)) "t2";
            mkTick (mkRegistry (inr (ErrMsg "gone")) (EmptyString, None)) "t3";
            mkTick (mkRegistry (inl 0) ("a", None)) "t4"] initState
  = pollLoop [mkTick (mkRegistry (inl 1) ("a", None)) "t1";
              mkTick (mkRegistry (inl 1) (EmptyString, Some ErrNotExist)) "t2";
              mkTick (mkRegistry (inr (ErrMsg "gone")) (EmptyString, None)) "t3"]
             initState /\
  returned (pollLoop [mkTick (mkRegistry (inl 1) ("a", None)) "t1";
                      mkTick (mkRegistry (inl 1) (EmptyString, Some ErrNotExist)) "t2"]
                     initState) = Some Pending.
Proof.
  pose proof (pollLoop_ends_iff_fatal_read
                [mkTick (mkRegistry (inl 1) ("a", None)) "t1";
                 mkTick (mkRegistry (inl 1) (EmptyString, Some ErrNotExist)) "t2";
                 mkTick (mkRegistry (inr (ErrMsg "gone")) (EmptyString, None)) "t3";
                 mkTick (mkRegistry (inl 0) ("a", None)) "t4"]
                initState eq_refl) as [H1 [H2 _]].
  split; [exact H1 | split].
  - exact (H2 [mkTick (mkRegistry (inl 1) ("a", None)) "t1";
               mkTick (mkRegistry (inl 1) (EmptyString, Some ErrNotExist)) "t2"]
              (mkTick (mkRegistry (inr (ErrMsg "gone")) (EmptyString, None)) "t3")
              [mkTick (mkRegistry (inl 0) ("a", None)) "t4"]
              eq_refl eq_refl).
  - exact (proj1 (pollLoop_ends_iff_fatal_read
                    [mkTick (mkRegistry (inl 1) ("a", None)) "t1";
                     mkTick (mkRegistry (inl 1) (EmptyString, Some ErrNotExist)) "t2"]
                    initState eq_refl)).
Defined.

(** ** Start-up of the first instance *)

(** Whatever the command line, when [serverMain] reaches the poll loop the
    flag is armed: no path of the start-up ever disarms it. *)
Lemma serverStartup_reaches_loop_armed (args : list string) (t : trace)
    (s1 : State) :
  serverStartup args initState = (t, Done true s1) ->
  listenerEnabled s1 = true.
Proof.
  unfold serverStartup.
  destruct (parseCommand args) as [cmd err].
  destruct err as [e |]; run; simpl;
    destruct (cmd =? CMD_QUIT); try discriminate;
    destruct ((cmd =? NO_COMMAND) || (cmd =? CMD_START)); simpl;
    intros H; injection H as _ <-; reflexivity.
Qed.

(** C5, evaluated where it fails.  Launched with [-stop], the first
    instance reaches the poll loop without having printed or changed
    anything: the flag still has its initial value, armed. *)
Theorem serverStartup_stop_leaves_armed :
  serverStartup ["proxy-monitor"; "-stop"] initState
  = ([], Done true initState) /\
  listenerEnabled initState = true.
Proof. split; reflexivity. Qed.

(** Launched with [-start] or with no argument the start-up arms the flag
    and says so. *)
Lemma serverStartup_start_or_none :
  serverStartup ["proxy-monitor"; "-start"] initState
  = ([Println [Str "Now listening to proxy changes"]], Done true initState) /\
  serverStartup ["proxy-monitor"] initState
  = ([Println [Str "Now listening to proxy changes"]], Done true initState).
Proof. split; reflexivity. Qed.

(** ** The later instances *)

(** The byte a later instance writes is the parsed command, and it writes
    at most that one byte. *)
Lemma clientMain_wire (dial : option error) (args : list string)
    (writeErr : option error) (response : byte + error) :
  wire (clientMain dial args writeErr response) =
  match dial, snd (parseCommand args) with
  | None, None => [fst (parseCommand args)]
  | _, _ => []
  end.
Proof.
  unfold clientMain. destruct dial as [e |]; [reflexivity|].
  destruct (parseCommand args) as [cmd [e |]]; simpl; [reflexivity|].
  unfold wire. rewrite flat_map_app. simpl. rewrite app_nil_r.
  destruct writeErr as [e |]; simpl; [reflexivity|].
  destruct (cmd =? CMD_QUIT); simpl; [reflexivity|].
  destruct response as [reply | e]; simpl; [| reflexivity].
  destruct (cmd =? CMD_START); [reflexivity|].
  destruct (cmd =? CMD_STOP); reflexivity.
Qed.

(** With an argument, a later instance writes STOP, QUIT or START, or
    writes nothing. *)
Lemma clientMain_wire_with_flag (dial : option error) (args : list string)
    (writeErr : option error) (response : byte + error) (b : byte) :
  (2 <= List.length args)%nat ->
  In b (wire (clientMain dial args writeErr response)) ->
  b = CMD_STOP \/ b = CMD_QUIT \/ b = CMD_START.
Proof.
  intros Hlen. rewrite clientMain_wire. unfold parseCommand.
  destruct (Nat.ltb_spec (List.length args) 2) as [Hlt | _]; [lia|].
  destruct dial as [e |]; [intros []|].
  destruct (nth 1 args EmptyString =? "-stop")%string; simpl;
    [intros [<- | []]; auto|].
  destruct (nth 1 args EmptyString =? "-start")%string; simpl;
    [intros [<- | []]; auto|].
  destruct (nth 1 args EmptyString =? "-quit")%string; simpl;
    [intros [<- | []]; auto|].
  intros [].
Qed.

(** C2, evaluated where it fails.  A later instance launched with no
    argument parses NONE without an error and writes the byte 0 to the
    pipe. *)
Theorem clientMain_no_flag_writes_NONE :
  parseCommand ["proxy-monitor"] = (NO_COMMAND, None) /\
  clientMain None ["proxy-monitor"] None (inl 1) = [PipeWrite 0; PipeClose] /\
  wire (clientMain None ["proxy-monitor"] None (inl 1)) = [NO_COMMAND].
Proof. repeat split; reflexivity. Qed.

(** * Further properties of the code *)

(** ** parseCommand *)

Lemma parseCommand_cases (args : list string) :
  parseCommand args = (NO_COMMAND, None) \/
  parseCommand args = (CMD_STOP, None) \/
  parseCommand args = (CMD_START, None) \/
  parseCommand args = (CMD_QUIT, None) \/
  parseCommand args =
    (NO_COMMAND,
     Some (ErrMsg ("unknown command: " ++ nth 1 args EmptyString)%string)).
Proof.
  unfold parseCommand.
  destruct (List.length args <? 2)%nat; auto.
  destruct (nth 1 args EmptyString =? "-stop")%string; auto.
  destruct (nth 1 args EmptyString =? "-start")%string; auto.
  destruct (nth 1 args EmptyString =? "-quit")%string; auto 6.
Qed.

(** X1.  Only the first argument counts: whatever follows it on the command
    line never changes the command or the error. *)
Theorem parseCommand_first_argument_only
    (prog arg : string) (more : list string) :
  parseCommand (prog :: arg :: more) = parseCommand [prog; arg].
Proof. reflexivity. Qed.

(** X2.  A command other than NONE comes out only without an error, and it
    tells which flag was given: STOP, START and QUIT are answered exactly
    for a first argument [-stop], [-start] and [-quit].  An error is
    answered exactly when there is a first argument that is none of the
    three, and its text names that argument. *)
Theorem parseCommand_flag_of_command (args : list string) :
  let arg := nth 1 args EmptyString in
  (fst (parseCommand args) = CMD_STOP <->
     (2 <= List.length args)%nat /\ arg = "-stop") /\
  (fst (parseCommand args) = CMD_START <->
     (2 <= List.length args)%nat /\ arg = "-start") /\
  (fst (parseCommand args) = CMD_QUIT <->
     (2 <= List.length args)%nat /\ arg = "-quit") /\
  (snd (parseCommand args) <> None <->
     (2 <= List.length args)%nat /\
     arg <> "-stop" /\ arg <> "-start" /\ arg <> "-quit") /\
  (snd (parseCommand args) <> None ->
     parseCommand args =
       (NO_COMMAND, Some (ErrMsg ("unknown command: " ++ arg)%string))).
Proof.
  intros arg. unfold parseCommand. fold arg.
  destruct (Nat.ltb_spec (List.length args) 2) as [Hlt | Hge]; simpl.
  - intuition (try discriminate; try lia; try congruence).
  - destruct (String.eqb_spec arg "-stop") as [Hstop | Hstop]; simpl;
      [intuition (try discriminate; try lia; try congruence) |].
    destruct (String.eqb_spec arg "-start") as [Hstart | Hstart]; simpl;
      [intuition (try discriminate; try lia; try congruence) |].
    destruct (String.eqb_spec arg "-quit") as [Hquit | Hquit]; simpl;
      intuition (try discriminate; try lia; try congruence).
Qed.

Lemma parseCommand_flag_of_command_witness :
  parseCommand ["proxy-monitor"; "-pause"]
  = (NO_COMMAND, Some (ErrMsg "unknown command: -pause")).
Proof.
  apply (proj2 (proj2 (proj2 (proj2
           (parseCommand_flag_of_command ["proxy-monitor"; "-pause"]))))).
  discriminate.
Defined.


(** ** clientMain *)

Ltac parse_cases args :=
  let H := fresh "Hparse" in
  destruct (parseCommand_cases args) as [H | [H | [H | [H | H]]]];
  unfold clientMain; rewrite H; clear H.

(** X3.  A later instance that could not dial touches no pipe.  One that
    dialled closes its connection exactly once, as its last act, whatever
    happens in between, and writes at most one byte before that. *)
Theorem clientMain_closes_once (dial : option error) (args : list string)
    (writeErr : option error) (response : byte + error) :
  match dial with
  | Some err =>
      clientMain dial args writeErr response
      = [Println [Str "Failed to dial to pipe"; Err err]]
  | None =>
      exists t,
        clientMain dial args writeErr response = t ++ [PipeClose] /\
        count_PipeClose t = 0%nat /\
        (List.length (wire t) <= 1)%nat
  end.
Proof.
  destruct dial as [err |]; [reflexivity|].
  exists (removelast (clientMain None args writeErr response)).
  parse_cases args; simpl;
    destruct writeErr as [e |]; simpl;
    try destruct response as [reply | e2]; simpl;
    (split; [reflexivity | split; [reflexivity | simpl; lia]]).
Qed.

(** X4.  After sending QUIT a later instance never reads: what it does is
    the same whatever the pipe would have answered. *)
Theorem clientMain_quit_ignores_response (dial : option error)
    (args : list string) (writeErr : option error)
    (response response' : byte + error) :
  fst (parseCommand args) = CMD_QUIT ->
  clientMain dial args writeErr response
  = clientMain dial args writeErr response'.
Proof.
  destruct dial as [err |]; [reflexivity|].
  parse_cases args; simpl; try discriminate; intros _;
    destruct writeErr; reflexivity.
Qed.

Lemma clientMain_quit_ignores_response_witness :
  clientMain None ["proxy-monitor"; "-quit"] None (inl 1)
  = clientMain None ["proxy-monitor"; "-quit"] None (inr (ErrMsg "EOF")).
Proof.
  apply (clientMain_quit_ignores_response None ["proxy-monitor"; "-quit"]).
  reflexivity.
Defined.

(** X5.  The line for a QUIT that was answered is never printed: no
    command line, no outcome of the dial or the write and no response makes
    a later instance print it. *)
Theorem clientMain_never_prints_quitting (dial : option error)
    (args : list string) (writeErr : option error)
    (response : byte + error) :
  ~ In (Println [Str "Quitting monitor program..."])
       (clientMain dial args writeErr response).
Proof.
  destruct dial as [err |].
  - simpl. intros [H | []]. discriminate H.
  - parse_cases args; simpl;
      destruct writeErr as [e |]; simpl;
      try destruct response as [reply | e']; simpl;
      try destruct (reply =? 1); simpl;
      intuition discriminate.
Qed.

(** X6.  Only the byte 1 counts as success: any other response byte makes a
    later instance act exactly as on the byte 0. *)
Theorem clientMain_reply_other_than_1 (dial : option error)
    (args : list string) (writeErr : option error) (reply : byte) :
  reply <> 1 ->
  clientMain dial args writeErr (inl reply)
  = clientMain dial args writeErr (inl 0).
Proof.
  intros Hne. destruct dial as [err |]; [reflexivity|].
  parse_cases args; simpl; try reflexivity;
    destruct (Z.eqb_spec reply 1); try contradiction; reflexivity.
Qed.

Lemma clientMain_reply_other_than_1_witness :
  clientMain None ["proxy-monitor"; "-start"] None (inl 255)
  = clientMain None ["proxy-monitor"; "-start"] None (inl 0).
Proof.
  apply (clientMain_reply_other_than_1 None ["proxy-monitor"; "-start"] None 255).
  discriminate.
Defined.

(** ** The listener *)

Lemma set_listenerEnabled_same (s : State) :
  set_listenerEnabled (listenerEnabled s) s = s.
Proof. destruct s; reflexivity. Qed.

(** What one iteration that the listener gets through does. *)
Lemma pipeIteration_survivable (a : accept_result) (s : State) :
  survivable a = true ->
  snd (pipeIteration a s) =
    Done tt (set_listenerEnabled (acceptEffect a (listenerEnabled s)) s) /\
  Forall (fun b => b = 0 \/ b = 1) (wire (fst (pipeIteration a s))).
Proof.
  destruct a as [[r w] | err]; simpl.
  - destruct r as [cmd | err |]; simpl; try discriminate.
    + intros Hq. unfold commandEffect, executeCommand.
      destruct (cmd =? CMD_START).
      * run. destruct s as [[|] le ls]; destruct w; simpl;
          split; auto.
      * destruct (cmd =? CMD_STOP).
        -- run. destruct s as [[|] le ls]; destruct w; simpl;
             split; auto.
        -- destruct (cmd =? CMD_QUIT); [discriminate|].
           run. destruct s as [en le ls]; destruct w; simpl; split; auto.
    + intros _. destruct s; split; [reflexivity | constructor].
  - intros _. destruct s; split; [reflexivity | constructor].
Qed.

Lemma pipeIteration_not_survivable (a : accept_result) (s : State) :
  survivable a = false ->
  wire (fst (pipeIteration a s)) = [] /\
  (snd (pipeIteration a s) = Exited 0 \/ snd (pipeIteration a s) = Blocked).
Proof.
  destruct a as [[r w] | err]; simpl; try discriminate.
  destruct r as [cmd | err |]; simpl; try discriminate.
  - intros Hq. apply negb_false_iff in Hq. apply Z.eqb_eq in Hq. subst cmd.
    split; [reflexivity | left; reflexivity].
  - intros _. split; [reflexivity | right; reflexivity].
Qed.

Lemma acceptLoop_cons (a : accept_result) (rest : list accept_result)
    (s : State) :
  acceptLoop (a :: rest) s =
  match pipeIteration a s with
  | (t, Done _ s1) =>
      (t ++ fst (acceptLoop rest s1), snd (acceptLoop rest s1))
  | (t, Exited c) => (t, Exited c)
  | (t, Blocked) => (t, Blocked)
  end.
Proof.
  change (acceptLoop (a :: rest) s)
    with (bind (pipeIteration a) (fun _ => acceptLoop rest) s).
  unfold bind. destruct (pipeIteration a s) as [t [[] s1 | c |]]; try reflexivity.
  destruct (acceptLoop rest s1); reflexivity.
Qed.

(* The state the listener leaves, through the setter of the flag. *)
Lemma acceptLoop_final_setter (accepts : list accept_result) (s : State) :
  final (acceptLoop accepts s) =
  if forallb survivable accepts
  then Some (set_listenerEnabled
               (fold_left (fun en a => acceptEffect a en) accepts
                          (listenerEnabled s)) s)
  else None.
Proof.
  revert s. induction accepts as [| a rest IH]; intros s.
  - simpl. rewrite set_listenerEnabled_same. reflexivity.
  - rewrite acceptLoop_cons. simpl forallb. simpl fold_left.
    destruct (survivable a) eqn:Ha.
    + destruct (pipeIteration_survivable a s Ha) as [Hs _].
      destruct (pipeIteration a s) as [t r]. simpl in Hs. subst r.
      unfold final in *. simpl. rewrite IH. simpl.
      destruct (forallb survivable rest); reflexivity.
    + destruct (pipeIteration_not_survivable a s Ha) as [_ Hs].
      destruct (pipeIteration a s) as [t r]. simpl in Hs.
      destruct Hs; subst r; reflexivity.
Qed.

(** X7.  The listener ends only by a QUIT byte or a read that never
    returns.  Through any other iterations (failed accepts, failed reads,
    failed writes, any other bytes) it keeps running; in the state it
    leaves, the two cached values are those it started with and the armed
    flag is that of the last START or STOP among the bytes read, or the one
    it started with. *)
Theorem acceptLoop_final_state (accepts : list accept_result) (s : State) :
  match final (acceptLoop accepts s) with
  | Some s1 =>
      forallb survivable accepts = true /\
      listenerEnabled s1 =
        fold_left (fun en a => acceptEffect a en) accepts (listenerEnabled s) /\
      lastProxyEnable s1 = lastProxyEnable s /\
      lastProxyServer s1 = lastProxyServer s
  | None => forallb survivable accepts = false
  end.
Proof.
  rewrite acceptLoop_final_setter.
  destruct (forallb survivable accepts); [| reflexivity].
  destruct s as [en le ls]. repeat split.
Qed.

(** X8.  Every byte the listener writes to the pipe is 0 or 1, and it
    writes at most one byte for each iteration of its loop. *)
Theorem acceptLoop_replies (accepts : list accept_result) (s : State) :
  Forall (fun b => b = 0 \/ b = 1) (wire (fst (acceptLoop accepts s))) /\
  (List.length (wire (fst (acceptLoop accepts s))) <= List.length accepts)%nat.
Proof.
  revert s. induction accepts as [| a rest IH]; intros s.
  - simpl. split; [constructor | lia].
  - rewrite acceptLoop_cons.
    assert (Hone : Forall (fun b => b = 0 \/ b = 1)
                          (wire (fst (pipeIteration a s))) /\
                   (List.length (wire (fst (pipeIteration a s))) <= 1)%nat).
    { destruct a as [[r w] | err]; simpl.
      - destruct r as [cmd | err |]; simpl.
        + unfold executeCommand.
          destruct (cmd =? CMD_START);
            [| destruct (cmd =? CMD_STOP); [| destruct (cmd =? CMD_QUIT)]];
            run; destruct s as [[|] le ls]; destruct w; simpl;
            split; auto; lia.
        + split; [constructor | simpl; lia].
        + split; [constructor | simpl; lia].
      - split; [constructor | simpl; lia]. }
    destruct Hone as [H01 Hlen].
    destruct (pipeIteration a s) as [t [[] s1 | c |]]; simpl in *.
    + destruct (IH s1) as [IH1 IH2].
      unfold wire in *. rewrite flat_map_app, length_app. split.
      * apply Forall_app. split; assumption.
      * lia.
    + split; [assumption | lia].
    + split; [assumption | lia].
Qed.



(** ** The tray menu *)

(** X10.  A click on Start or Stop does to the state and prints exactly
    what the same command does when it comes over the pipe.  A click on
    Quit ends the process with status 0 as the QUIT byte does, but without
    the line the executor prints first. *)
Theorem trayClick_as_executeCommand (m : menu_item) (s : State) :
  match m with
  | MenuQuit =>
      trayClick m s = ([], Exited 0) /\
      executeCommand (menuCommand m) s = ([Println [Str "Exiting..."]], Exited 0)
  | _ =>
      fst (trayClick m s) = fst (executeCommand (menuCommand m) s) /\
      final (trayClick m s) = final (executeCommand (menuCommand m) s)
  end.
Proof.
  destruct m; simpl menuCommand.
  - rewrite executeCommand_START. unfold trayClick; run.
    destruct (listenerEnabled s); split; reflexivity.
  - rewrite executeCommand_STOP. unfold trayClick; run.
    destruct (listenerEnabled s); split; reflexivity.
  - split; reflexivity.
Qed.

Lemma trayClick_final (m : menu_item) (s : State) :
  snd (trayClick m s) =
  match m with
  | MenuQuit => Exited 0
  | _ => Done tt (set_listenerEnabled
                    (commandEffect (menuCommand m) (listenerEnabled s)) s)
  end.
Proof.
  destruct m; unfold trayClick; run; simpl;
    destruct s as [[|] le ls]; reflexivity.
Qed.

(* The state a run of clicks leaves, through the setter of the flag. *)
Lemma trayLoop_final_setter (clicks : list menu_item) (s : State) :
  final (trayLoop clicks s) =
  if forallb (fun m => match m with MenuQuit => false | _ => true end) clicks
  then Some (set_listenerEnabled
               (fold_left (fun en m => commandEffect (menuCommand m) en) clicks
                          (listenerEnabled s)) s)
  else None.
Proof.
  revert s. induction clicks as [| m rest IH]; intros s.
  - simpl. rewrite set_listenerEnabled_same. reflexivity.
  - change (trayLoop (m :: rest) s)
      with (bind (trayClick m) (fun _ => trayLoop rest) s).
    pose proof (trayClick_final m s) as Hm.
    unfold bind. destruct (trayClick m s) as [t r]. simpl in Hm. subst r.
    destruct m; simpl forallb; simpl fold_left; try reflexivity.
    + match goal with
      | |- context [trayLoop rest ?s1] =>
          specialize (IH s1); destruct (trayLoop rest s1) as [t2 r2]
      end.
      unfold final in *. simpl in *. rewrite IH.
      destruct (forallb _ rest); reflexivity.
    + match goal with
      | |- context [trayLoop rest ?s1] =>
          specialize (IH s1); destruct (trayLoop rest s1) as [t2 r2]
      end.
      unfold final in *. simpl in *. rewrite IH.
      destruct (forallb _ rest); reflexivity.
Qed.

Lemma last_In {A} (l : list A) (d : A) : l <> [] -> In (last l d) l.
Proof.
  induction l as [| a l IH]; [intros H; contradiction|].
  intros _. destruct l as [| b l']; [left; reflexivity|].
  right. apply IH. discriminate.
Qed.

Lemma trayLoop_no_quit (clicks : list menu_item) :
  forallb (fun m => match m with MenuQuit => false | _ => true end) clicks
  = if in_dec menu_item_eq_dec MenuQuit clicks then false else true.
Proof.
  induction clicks as [| m l IH]; [reflexivity|].
  simpl forallb. rewrite IH.
  destruct (in_dec menu_item_eq_dec MenuQuit l) as [Hin | Hno];
    destruct (in_dec menu_item_eq_dec MenuQuit (m :: l)) as [Hin' | Hno'];
    destruct m; simpl; try reflexivity.
  - exfalso. apply Hno'. right. exact Hin.
  - exfalso. apply Hno'. right. exact Hin.
  - exfalso. apply Hno'. left. reflexivity.
  - exfalso. destruct Hin' as [E | Hin']; [discriminate | contradiction].
  - exfalso. destruct Hin' as [E | Hin']; [discriminate | contradiction].
  - exfalso. apply Hno'. left. reflexivity.
Qed.

Lemma trayLoop_last_click (clicks : list menu_item) (en : bool) :
  ~ In MenuQuit clicks ->
  fold_left (fun en m => commandEffect (menuCommand m) en) clicks en
  = match last clicks MenuQuit with
    | MenuStart => true
    | MenuStop => false
    | MenuQuit => en
    end.
Proof.
  revert en. induction clicks as [| m l IH]; intros en Hno; [reflexivity|].
  simpl fold_left.
  rewrite IH by (intros Hin; apply Hno; right; exact Hin).
  destruct l as [| m' l'].
  - simpl. destruct m; reflexivity.
  - change (last (m :: m' :: l') MenuQuit) with (last (m' :: l') MenuQuit).
    destruct (last (m' :: l') MenuQuit) eqn:El; try reflexivity.
    exfalso. apply Hno. right. rewrite <- El. apply last_In. discriminate.
Qed.

(** X11.  A run of clicks with a Quit in it ends the process.  A run
    without one leaves a state whose two cached values are those before the
    clicks and whose armed flag is what the last click asks: armed after
    Start, disarmed after Stop, as before when there was no click. *)
Theorem trayLoop_final_state (clicks : list menu_item) (s : State) :
  match final (trayLoop clicks s) with
  | Some s1 =>
      ~ In MenuQuit clicks /\
      listenerEnabled s1 =
        match last clicks MenuQuit with
        | MenuStart => true
        | MenuStop => false
        | MenuQuit => listenerEnabled s
        end /\
      lastProxyEnable s1 = lastProxyEnable s /\
      lastProxyServer s1 = lastProxyServer s
  | None => In MenuQuit clicks
  end.
Proof.
  rewrite trayLoop_final_setter.
  rewrite (trayLoop_no_quit clicks).
  destruct (in_dec menu_item_eq_dec MenuQuit clicks) as [Hin | Hno];
    [exact Hin|].
  rewrite (trayLoop_last_click clicks (listenerEnabled s) Hno).
  destruct s as [en le ls]. repeat split. exact Hno.
Qed.

(** ** A later instance talking to the first *)

(** X12.  What a later instance reports is what happened in the first
    instance.  When the client prints that it started the monitoring, the
    flag was disarmed and is now armed; when it prints that it stopped it,
    the flag was armed and is now disarmed; when the first instance is left
    running and the client prints neither line, the whole state is as
    before.  The two cached values are never touched.  The first instance
    ends only on [-quit], with status 0 and without a byte written back. *)
Theorem session_report_matches_effect
    (eof : error) (args : list string) (s : State) :
  let client := fst (session eof args s) in
  let server := snd (session eof args s) in
  let started := Println [Str "Started monitoring proxy settings."] in
  let stopped := Println [Str "Stopped monitoring proxy settings"] in
  match snd server with
  | Done _ s1 =>
      lastProxyEnable s1 = lastProxyEnable s /\
      lastProxyServer s1 = lastProxyServer s /\
      ((s1 = s /\ ~ In started client /\ ~ In stopped client) \/
       (listenerEnabled s = false /\ listenerEnabled s1 = true /\
        In started client /\ ~ In stopped client) \/
       (listenerEnabled s = true /\ listenerEnabled s1 = false /\
        In stopped client /\ ~ In started client))
  | Exited code =>
      code = 0 /\ fst (parseCommand args) = CMD_QUIT /\
      wire (fst server) = [] /\
      client = [PipeWrite CMD_QUIT; PipeClose]
  | Blocked => False
  end.
Proof.
  destruct (parseCommand_cases args) as [H | [H | [H | [H | H]]]];
    unfold session, clientMain; rewrite H; clear H;
    destruct s as [[|] le ls]; simpl;
    try solve [repeat split; reflexivity];
    (split; [reflexivity | split; [reflexivity |]]);
    first
      [ solve [left; repeat split; intros Hin;
               repeat (destruct Hin as [Hin | Hin]; try discriminate Hin);
               exact Hin]
      | solve [right; left; repeat split;
               try (left; reflexivity); try (right; left; reflexivity);
               intros Hin;
               repeat (destruct Hin as [Hin | Hin]; try discriminate Hin);
               exact Hin]
      | solve [right; right; repeat split;
               try (left; reflexivity); try (right; left; reflexivity);
               intros Hin;
               repeat (destruct Hin as [Hin | Hin]; try discriminate Hin);
               exact Hin] ].
Qed.

(** ** More on the change monitor *)

(** A tick always returns; it leaves the flag alone, writes nothing to the
    pipe and logs at most one line. *)
Ltac shape_done :=
  do 3 eexists;
  split; [reflexivity | split; [reflexivity | split; [reflexivity | simpl; lia]]].

Lemma checkForChanges_shape (key : registry) (now : string) (s : State) :
  exists t c s1,
    checkForChanges key now s = (t, Done c s1) /\
    listenerEnabled s1 = listenerEnabled s /\
    wire t = [] /\
    (List.length (logged t) <= 1)%nat.
Proof.
  destruct s as [en le ls], key as [pe [sv serr]].
  unfold checkForChanges; run; simpl.
  destruct en; simpl; [| shape_done].
  destruct pe as [v | e]; simpl; [| shape_done].
  destruct serr as [[| m] |]; simpl.
  - destruct ((v =? le) && (sv =? EmptyString)%string);
      [| destruct (v =? 0)]; shape_done.
  - shape_done.
  - destruct ((v =? le) && (sv =? ls)%string);
      [| destruct (v =? 0)]; shape_done.
Qed.

Lemma pollLoop_cons (t : tick) (rest : list tick) (s : State) :
  pollLoop (t :: rest) s =
  bind (checkForChanges (tick_key t) (tick_time t))
       (fun continue => if continue : bool then pollLoop rest else ret Returned) s.
Proof. reflexivity. Qed.

(* The shape of every run of the poll loop. *)
Lemma pollLoop_shape (ticks : list tick) (s : State) :
  exists t e s1,
    pollLoop ticks s = (t, Done e s1) /\
    listenerEnabled s1 = listenerEnabled s /\
    wire t = [] /\
    (List.length (logged t) <= List.length ticks)%nat.
Proof.
  revert s. induction ticks as [| k rest IH]; intros s.
  - exists [], Pending, s. repeat split; simpl; lia.
  - rewrite pollLoop_cons. unfold bind.
    destruct (checkForChanges_shape (tick_key k) (tick_time k) s)
      as (t1 & c & s1 & E & Hen & Hw & Hl).
    rewrite E. destruct c.
    + destruct (IH s1) as (t2 & e & s2 & E2 & Hen2 & Hw2 & Hl2).
      rewrite E2. exists (t1 ++ t2), e, s2.
      unfold wire, logged in *. rewrite !flat_map_app, length_app.
      repeat split; [congruence | rewrite Hw, Hw2; reflexivity | simpl; lia].
    + exists t1, Returned, s1.
      split; [simpl; rewrite app_nil_r; reflexivity |].
      repeat split; try assumption.
      change (List.length (k :: rest)) with (S (List.length rest)). lia.
Qed.

(** X13.  The poll loop never ends the process and never blocks; it never
    changes the armed flag, writes nothing to the pipe, and appends at most
    one log line for each tick. *)
Theorem pollLoop_keeps_flag (ticks : list tick) (s : State) :
  exists t e s1,
    pollLoop ticks s = (t, Done e s1) /\
    listenerEnabled s1 = listenerEnabled s /\
    wire t = [] /\
    (List.length (logged t) <= List.length ticks)%nat.
Proof. apply pollLoop_shape. Qed.

(* A disarmed loop passes every tick. *)
Lemma pollLoop_disarmed (ticks : list tick) (s : State) :
  listenerEnabled s = false ->
  pollLoop ticks s = ([], Done Pending s).
Proof.
  intros Hoff. induction ticks as [| k rest IH]; [reflexivity|].
  rewrite pollLoop_cons. unfold bind.
  rewrite (checkForChanges_disarmed _ _ _ Hoff). rewrite IH. reflexivity.
Qed.

(** X14.  While the flag is disarmed the loop does nothing at all: no read
    failure ends it, nothing is printed or logged and the cached values stay
    as they are, however many ticks pass and whatever the registry would
    answer. *)
Theorem pollLoop_disarmed_silent (ticks : list tick) (s : State) :
  listenerEnabled s = false ->
  pollLoop ticks s = ([], Done Pending s).
Proof. apply pollLoop_disarmed. Qed.

Lemma pollLoop_disarmed_silent_witness :
  pollLoop [mkTick (mkRegistry (inr (ErrMsg "gone")) (EmptyString, None)) "t1";
            mkTick (mkRegistry (inl 1) ("10.0.0.1:8080", None)) "t2"]
           (mkState false 0 EmptyString)
  = ([], Done Pending (mkState false 0 EmptyString)).
Proof.
  apply (pollLoop_disarmed_silent
           [mkTick (mkRegistry (inr (ErrMsg "gone")) (EmptyString, None)) "t1";
            mkTick (mkRegistry (inl 1) ("10.0.0.1:8080", None)) "t2"]
           (mkState false 0 EmptyString)).
  reflexivity.
Defined.

(* An armed tick with two successful reads. *)
Lemma checkForChanges_read_ok
    (key : registry) (now : string) (s : State) (v : Z) (sv : string) :
  listenerEnabled s = true ->
  ProxyEnable key = inl v ->
  ProxyServer key = (sv, None) ->
  checkForChanges key now s =
  if same_as_cache v sv s then ([], Done true s)
  else ([LogWrite (change_line now v sv)], Done true (mkState true v sv)).
Proof.
  destruct s as [en le ls], key as [pe ps]. simpl.
  intros -> -> ->. unfold checkForChanges, same_as_cache, change_line; run; simpl.
  destruct ((v =? le) && (sv =? ls)%string); [reflexivity|].
  destruct (v =? 0); reflexivity.
Qed.

(** X15.  An armed tick whose two reads succeed: when both values are those
    in the cache nothing happens; otherwise the cache takes the two values
    and exactly one line is logged, "proxy off" without the address when
    the flag read is 0 and "proxy on" with the address otherwise. *)
Theorem checkForChanges_logs_change
    (key : registry) (now : string) (s : State) (v : Z) (sv : string) :
  listenerEnabled s = true ->
  ProxyEnable key = inl v ->
  ProxyServer key = (sv, None) ->
  checkForChanges key now s =
  if same_as_cache v sv s then ([], Done true s)
  else ([LogWrite (change_line now v sv)], Done true (mkState true v sv)).
Proof. apply checkForChanges_read_ok. Qed.

Lemma checkForChanges_logs_change_witness :
  checkForChanges (mkRegistry (inl 0) ("10.0.0.1:8080", None)) "now"
                  (mkState true 1 "10.0.0.1:8080")
  = ([LogWrite (proxy_off_line "now")],
     Done true (mkState true 0 "10.0.0.1:8080")).
Proof.
  exact (checkForChanges_logs_change
           (mkRegistry (inl 0) ("10.0.0.1:8080", None)) "now"
           (mkState true 1 "10.0.0.1:8080") 0 "10.0.0.1:8080"
           eq_refl eq_refl eq_refl).
Defined.

(** X16.  A second tick that reads what the first just read logs nothing
    more and leaves the cache as the first left it.  (The registry package
    gives the empty string together with every error.) *)
Theorem pollLoop_same_reads_again
    (key : registry) (now1 now2 : string) (s : State) :
  (snd (ProxyServer key) <> None -> fst (ProxyServer key) = EmptyString) ->
  logged (fst (pollLoop [mkTick key now1; mkTick key now2] s))
  = logged (fst (pollLoop [mkTick key now1] s)) /\
  final (pollLoop [mkTick key now1; mkTick key now2] s)
  = final (pollLoop [mkTick key now1] s).
Proof.
  destruct s as [en le ls], key as [pe [sv serr]]. simpl fst; simpl snd.
  intros Hempty.
  unfold pollLoop, checkForChanges; run; simpl.
  destruct en; simpl; [| split; reflexivity].
  destruct pe as [v | e]; simpl; [| split; reflexivity].
  destruct serr as [[| m] |]; simpl.
  - rewrite Hempty by discriminate. simpl.
    destruct (v =? le) eqn:Hv; simpl.
    + rewrite Hv. simpl. split; reflexivity.
    + destruct (v =? 0); simpl; rewrite Z.eqb_refl; simpl; split; reflexivity.
  - split; reflexivity.
  - destruct ((v =? le) && (sv =? ls)%string) eqn:Hsame; simpl.
    + rewrite Hsame. simpl. split; reflexivity.
    + destruct (v =? 0); simpl; rewrite Z.eqb_refl, String.eqb_refl; simpl;
        split; reflexivity.
Qed.

Lemma pollLoop_same_reads_again_witness :
  logged (fst (pollLoop
                 [mkTick (mkRegistry (inl 1) (EmptyString, Some ErrNotExist)) "t1";
                  mkTick (mkRegistry (inl 1) (EmptyString, Some ErrNotExist)) "t2"]
                 initState))
  = logged (fst (pollLoop
                 [mkTick (mkRegistry (inl 1) (EmptyString, Some ErrNotExist)) "t1"]
                 initState)) /\
  final (pollLoop
           [mkTick (mkRegistry (inl 1) (EmptyString, Some ErrNotExist)) "t1";
            mkTick (mkRegistry (inl 1) (EmptyString, Some ErrNotExist)) "t2"]
           initState)
  = final (pollLoop
           [mkTick (mkRegistry (inl 1) (EmptyString, Some ErrNotExist)) "t1"]
           initState).
Proof.
  apply (pollLoop_same_reads_again
           (mkRegistry (inl 1) (EmptyString, Some ErrNotExist)) "t1" "t2"
           initState).
  intros _. reflexivity.
Defined.

(** X17.  Arming again compares with the cache from before the pause.
    After any number of disarmed ticks, START followed by a tick whose two
    reads succeed logs the one line for the values read when they differ
    from that cache, and nothing when they equal it, whatever the registry
    held in between. *)
Theorem rearm_compares_with_old_cache
    (ticks : list tick) (key : registry) (now : string) (s : State)
    (v : Z) (sv : string) :
  listenerEnabled s = false ->
  ProxyEnable key = inl v ->
  ProxyServer key = (sv, None) ->
  (pollLoop ticks ;;; executeCommand CMD_START ;;; checkForChanges key now) s
  = if same_as_cache v sv s
    then ([Println [Str "Now listening to proxy changes"]],
          Done true (set_listenerEnabled true s))
    else ([Println [Str "Now listening to proxy changes"];
           LogWrite (change_line now v sv)],
          Done true (mkState true v sv)).
Proof.
  intros Hoff Hpe Hps. unfold bind.
  rewrite (pollLoop_disarmed ticks s Hoff).
  rewrite executeCommand_START, Hoff.
  rewrite (checkForChanges_read_ok key now (set_listenerEnabled true s)
             v sv eq_refl Hpe Hps).
  unfold same_as_cache; simpl.
  destruct ((v =? lastProxyEnable s) && (sv =? lastProxyServer s)%string);
    reflexivity.
Qed.

Lemma rearm_compares_with_old_cache_witness :
  (pollLoop [mkTick (mkRegistry (inl 0) (EmptyString, None)) "t1"] ;;;
   executeCommand CMD_START ;;;
   checkForChanges (mkRegistry (inl 1) ("10.0.0.1:8080", None)) "t2")
    (mkState false 1 "10.0.0.1:8080")
  = ([Println [Str "Now listening to proxy changes"]],
     Done true (mkState true 1 "10.0.0.1:8080")).
Proof.
  exact (rearm_compares_with_old_cache
           [mkTick (mkRegistry (inl 0) (EmptyString, None)) "t1"]
           (mkRegistry (inl 1) ("10.0.0.1:8080", None)) "t2"
           (mkState false 1 "10.0.0.1:8080") 1 "10.0.0.1:8080"
           eq_refl eq_refl eq_refl).
Defined.

(** X18.  Once STOP was executed, in whatever state, the ticks that follow
    log nothing, print nothing and leave the cache alone; all that changed
    is the flag. *)
Theorem stop_silences_pollLoop (ticks : list tick) (s : State) :
  logged (fst ((executeCommand CMD_STOP ;;; pollLoop ticks) s)) = [] /\
  snd ((executeCommand CMD_STOP ;;; pollLoop ticks) s)
  = Done Pending (set_listenerEnabled false s).
Proof.
  unfold bind. rewrite executeCommand_STOP.
  destruct (listenerEnabled s) eqn:Hen.
  - rewrite (pollLoop_disarmed ticks (set_listenerEnabled false s) eq_refl).
    split; reflexivity.
  - rewrite (pollLoop_disarmed ticks s Hen).
    rewrite <- Hen, set_listenerEnabled_same. split; reflexivity.
Qed.

(** ** More on the start-up of the first instance *)

(** X19.  The first instance returns before monitoring exactly when it is
    launched with [-quit]; it then prints nothing, leaves the state alone
    and opens neither the registry key nor the log file, so nothing of what
    they would answer matters. *)
Theorem serverMain_quit_returns_at_once
    (args : list string) (openKey : option error)
    (openLogFile : string + error) (ticks : list tick) (s : State) :
  returned (serverStartup args s)
  = Some (negb (fst (parseCommand args) =? CMD_QUIT)) /\
  (fst (parseCommand args) = CMD_QUIT ->
   serverMain args openKey openLogFile ticks s = ([], Done Returned s)).
Proof.
  unfold serverMain, serverStartup.
  destruct (parseCommand_cases args) as [H | [H | [H | [H | H]]]];
    rewrite H; run; simpl; split; try reflexivity; try discriminate.
Qed.

Lemma serverMain_quit_returns_at_once_witness :
  serverMain ["proxy-monitor"; "-quit"] None (inl "proxy-monitor.log")
             [mkTick (mkRegistry (inl 1) ("10.0.0.1:8080", None)) "t1"]
             initState
  = ([], Done Returned initState).
Proof.
  apply (proj2 (serverMain_quit_returns_at_once
                  ["proxy-monitor"; "-quit"] None (inl "proxy-monitor.log")
                  [mkTick (mkRegistry (inl 1) ("10.0.0.1:8080", None)) "t1"]
                  initState)).
  reflexivity.
Defined.

(** X20.  An argument that is not recognised is reported and then treated
    as no argument: the first instance prints the error and that it is
    listening, and goes on to monitor in a state whose flag is armed and
    whose two cached values are as before. *)
Theorem serverStartup_unknown_flag
    (args : list string) (err : error) (s : State) :
  snd (parseCommand args) = Some err ->
  exists s1,
    serverStartup args s
    = ([Println [Str "Failed to read command line arguments"; Err err];
        Println [Str "Now listening to proxy changes"]],
       Done true s1) /\
    listenerEnabled s1 = true /\
    lastProxyEnable s1 = lastProxyEnable s /\
    lastProxyServer s1 = lastProxyServer s.
Proof.
  unfold serverStartup.
  destruct (parseCommand_cases args) as [H | [H | [H | [H | H]]]];
    rewrite H; simpl; try discriminate.
  intros E. injection E as <-.
  eexists. split; [reflexivity |]. repeat split.
Qed.

Lemma serverStartup_unknown_flag_witness :
  exists s1,
    serverStartup ["proxy-monitor"; "-pause"] (mkState false 1 "10.0.0.1:8080")
    = ([Println [Str "Failed to read command line arguments";
                 Err (ErrMsg "unknown command: -pause")];
        Println [Str "Now listening to proxy changes"]],
       Done true s1) /\
    listenerEnabled s1 = true /\
    lastProxyEnable s1 = lastProxyEnable (mkState false 1 "10.0.0.1:8080") /\
    lastProxyServer s1 = lastProxyServer (mkState false 1 "10.0.0.1:8080").
Proof.
  apply (serverStartup_unknown_flag ["proxy-monitor"; "-pause"]
           (ErrMsg "unknown command: -pause")
           (mkState false 1 "10.0.0.1:8080")).
  reflexivity.
Defined.

(** ** listenToProxyChanges *)

(** X21.  When the registry key or the log file cannot be opened the
    function reports it and returns: no tick is run, nothing is logged and
    the state is left alone.  The log file is not opened when the key
    failed. *)
Theorem listenToProxyChanges_open_failure
    (openKey : option error) (openLogFile : string + error)
    (ticks : list tick) (s : State) :
  openKey <> None \/ (exists err, openLogFile = inr err) ->
  listenToProxyChanges openKey openLogFile ticks s
  = ([Println match openKey, openLogFile with
              | Some err, _ => [Str "Error opening registry key"; Err err]
              | None, inr err => [Str "Failed to open log file:"; Err err]
              | None, inl name => [Str "Logging output to"; Str name]
              end],
     Done Returned s).
Proof.
  intros [Hkey | [err ->]].
  - destruct openKey as [e |]; [reflexivity | contradiction].
  - destruct openKey as [e |]; reflexivity.
Qed.

Lemma listenToProxyChanges_open_failure_witness :
  listenToProxyChanges None (inr (ErrMsg "Access is denied."))
    [mkTick (mkRegistry (inl 1) ("10.0.0.1:8080", None)) "t1"] initState
  = ([Println [Str "Failed to open log file:"; Err (ErrMsg "Access is denied.")]],
     Done Returned initState).
Proof.
  apply (listenToProxyChanges_open_failure None (inr (ErrMsg "Access is denied."))
           [mkTick (mkRegistry (inl 1) ("10.0.0.1:8080", None)) "t1"] initState).
  right. exists (ErrMsg "Access is denied."). reflexivity.
Defined.

(** X22.  Monitoring starts from the cache (0, empty), whatever the state
    held before.  So the first armed tick whose reads succeed logs nothing
    for a proxy that is off with an empty address, and one line for
    anything else. *)
Theorem listenToProxyChanges_first_tick
    (name : string) (key : registry) (now : string) (s : State)
    (v : Z) (sv : string) :
  listenerEnabled s = true ->
  ProxyEnable key = inl v ->
  ProxyServer key = (sv, None) ->
  logged (fst (listenToProxyChanges None (inl name) [mkTick key now] s))
  = if (v =? 0) && (sv =? EmptyString)%string then []
    else [change_line now v sv].
Proof.
  intros Hen Hpe Hps. unfold listenToProxyChanges.
  run. simpl. unfold bind.
  rewrite (checkForChanges_read_ok key now
             (set_lastProxyServer EmptyString (set_lastProxyEnable 0 s))
             v sv Hen Hpe Hps).
  unfold same_as_cache. simpl.
  destruct ((v =? 0) && (sv =? EmptyString)%string); reflexivity.
Qed.

Lemma listenToProxyChanges_first_tick_witness :
  logged (fst (listenToProxyChanges None (inl "proxy-monitor.log")
                 [mkTick (mkRegistry (inl 0) ("10.0.0.1:8080", None)) "t1"]
                 initState))
  = [proxy_off_line "t1"].
Proof.
  exact (listenToProxyChanges_first_tick "proxy-monitor.log"
           (mkRegistry (inl 0) ("10.0.0.1:8080", None)) "t1" initState
           0 "10.0.0.1:8080" eq_refl eq_refl eq_refl).
Defined.

(** ** The loops against their expected output *)

Lemma pipeIteration_reply (a : accept_result) (s : State) :
  survivable a = true ->
  wire (fst (pipeIteration a s)) =
  match a with
  | AcceptConn (mkConn (ReadByte cmd) _) => [replyTo cmd (listenerEnabled s)]
  | _ => []
  end.
Proof.
  destruct a as [[r w] | err]; simpl; [| reflexivity].
  destruct r as [cmd | err |]; simpl; try reflexivity.
  intros Hq. unfold replyTo, executeCommand.
  destruct (cmd =? CMD_START).
  - run. destruct s as [[|] le ls]; destruct w; reflexivity.
  - destruct (cmd =? CMD_STOP).
    + run. destruct s as [[|] le ls]; destruct w; reflexivity.
    + destruct (cmd =? CMD_QUIT); [discriminate|].
      run. destruct w; reflexivity.
Qed.

(** X24.  The bytes the listener writes are exactly the expected replies:
    for each byte read, in order, 1 when a START or STOP changed the flag, 0
    when it found the flag already there, 1 for any byte that is no command;
    nothing for a failed accept or read, and nothing from the first QUIT or
    hung read on. *)
Theorem acceptLoop_wire_is_replies (accepts : list accept_result) (s : State) :
  wire (fst (acceptLoop accepts s)) = replies accepts (listenerEnabled s).
Proof.
  revert s. induction accepts as [| a rest IH]; intros s; [reflexivity|].
  rewrite acceptLoop_cons. simpl replies.
  destruct (survivable a) eqn:Ha.
  - pose proof (pipeIteration_reply a s Ha) as Hr.
    destruct (pipeIteration_survivable a s Ha) as [Hs _].
    destruct (pipeIteration a s) as [t r]. simpl in Hr, Hs. subst r.
    simpl. unfold wire in *. rewrite flat_map_app, Hr.
    fold (wire (fst (acceptLoop rest
            (set_listenerEnabled (acceptEffect a (listenerEnabled s)) s)))).
    rewrite IH. simpl. destruct a as [[[cmd | err |] w] | err]; reflexivity.
  - destruct (pipeIteration_not_survivable a s Ha) as [Hw Hs].
    destruct (pipeIteration a s) as [t r]. simpl in Hw, Hs.
    destruct Hs; subst r; exact Hw.
Qed.

(** X25.  Armed, over any run of ticks whose reads all succeed, the log
    gets exactly one line for each change in the values read, the first
    compared with the cache; runs of equal values give no line.  The loop
    goes on, and the cache ends on the last values read. *)
Theorem pollLoop_logs_each_change
    (snaps : list (Z * string * string)) (s : State) :
  listenerEnabled s = true ->
  logged (fst (pollLoop (map readTick snaps) s))
  = change_lines (lastProxyEnable s, lastProxyServer s) snaps /\
  snd (pollLoop (map readTick snaps) s)
  = Done Pending
      (let last := last_values (lastProxyEnable s, lastProxyServer s) snaps in
       mkState true (fst last) (snd last)).
Proof.
  revert s. induction snaps as [| [[v sv] now] rest IH]; intros s Hen.
  - simpl. destruct s as [en le ls]. simpl in Hen. subst en.
    split; reflexivity.
  - simpl map. rewrite pollLoop_cons. unfold bind.
    simpl tick_key; simpl tick_time.
    rewrite (checkForChanges_read_ok
               (mkRegistry (inl v) (sv, None)) now s v sv Hen eq_refl eq_refl).
    unfold same_as_cache. simpl change_lines. simpl fst; simpl snd.
    unfold last_values. simpl fold_left.
    destruct ((v =? lastProxyEnable s) && (sv =? lastProxyServer s)%string)
      eqn:Hsame.
    + apply andb_true_iff in Hsame. destruct Hsame as [Hv Hsv].
      apply Z.eqb_eq in Hv. apply String.eqb_eq in Hsv. subst v sv.
      destruct (IH s Hen) as [IHl IHs].
      destruct (pollLoop (map readTick rest) s) as [t r]. simpl in *.
      split; assumption.
    + destruct (IH (mkState true v sv) eq_refl) as [IHl IHs].
      destruct (pollLoop (map readTick rest) (mkState true v sv)) as [t r].
      simpl in *. split; [f_equal; exact IHl | exact IHs].
Qed.

Lemma pollLoop_logs_each_change_witness :
  logged (fst (pollLoop (map readTick [(1, "10.0.0.1:8080", "t1");
                                       (1, "10.0.0.1:8080", "t2");
                                       (0, "10.0.0.1:8080", "t3")])
                        initState))
  = [proxy_on_line "t1" "10.0.0.1:8080"; proxy_off_line "t3"] /\
  snd (pollLoop (map readTick [(1, "10.0.0.1:8080", "t1");
                               (1, "10.0.0.1:8080", "t2");
                               (0, "10.0.0.1:8080", "t3")])
                initState)
  = Done Pending (mkState true 0 "10.0.0.1:8080").
Proof.
  exact (pollLoop_logs_each_change [(1, "10.0.0.1:8080", "t1");
                                    (1, "10.0.0.1:8080", "t2");
                                    (0, "10.0.0.1:8080", "t3")]
                                   initState eq_refl).
Defined.
